(** * riemann-hypotenuse: the distorted magnitude and its example runner

    The program is one Python function, [riemann_hypotenuse], and a driver,
    [run_tests], that feeds six literal cases through it and compares the
    results with [math.isclose].

    Python's [float] is IEEE-754 binary64, and so is Rocq's primitive [float]:
    [+], [*], [/], [abs], [<] and [sqrt] below are the very operations the
    interpreter performs, bit for bit.  Three things are Python's rather than
    IEEE's, and are written out:
    - [x ** 2] raises [OverflowError] when the square of a finite [x] is not
      finite (where [x * x] would quietly be [inf]);
    - [math.exp] raises [OverflowError] when the C library's [exp] returns an
      infinity at a finite argument;
    - [math.sqrt] raises [ValueError] at a negative argument.
    The C library's [exp] itself is not part of the repository: the model takes
    it as a parameter [c_exp], and [ref_exp] is a binary64 exponential that
    stands for it wherever a number has to be computed. *)

From Stdlib Require Import Reals Lra.
From Stdlib Require Import Floats ZArith List Bool Lia.
Import ListNotations.

Set Warnings "-inexact-float".
Local Open Scope float_scope.

(** ** Exceptions *)

Module Py.

Inductive exn : Set := OverflowError | ValueError.

Inductive res (A : Type) : Type :=
| Ok (a : A)
| Raise (e : exn).

Arguments Ok {A} a.
Arguments Raise {A} e.

Definition bind {A B : Type} (m : res A) (f : A -> res B) : res B :=
  match m with
  | Ok a => f a
  | Raise e => Raise e
  end.

End Py.

Import Py.

Notation "x <- m ;; k" := (Py.bind m (fun x => k))
  (at level 61, m at next level, right associativity).

(** ** The interpreter's float operations that can raise *)

(** [x ** 2] on floats ([float_pow] with the exponent [2.0]): the C library's
    [pow (x, 2.0)], taken as the correctly rounded square, and [OverflowError]
    when it is infinite at a finite [x]. *)
Definition float_pow2 (x : float) : res float :=
  let r := x * x in
  if is_infinity r && is_finite x then Raise OverflowError else Ok r.

(** Whether [x ** 2] overflows. *)
Definition pow2_overflows (x : float) : bool :=
  is_infinity (x * x) && is_finite x.

(** The wrapper [math_1] of the [math] module around a C function [f]:
    a NaN from a non-NaN argument is a [ValueError]; an infinity from a finite
    argument is an [OverflowError] when the function can overflow and a
    [ValueError] otherwise. *)
Definition math_1 (f : float -> float) (can_overflow : bool) (x : float) : res float :=
  let r := f x in
  if is_nan r && negb (is_nan x) then Raise ValueError
  else if is_infinity r && is_finite x then
    Raise (if can_overflow then OverflowError else ValueError)
  else Ok r.

Definition math_sqrt : float -> res float := math_1 sqrt false.

(** [math.isclose (a, b, rel_tol=, abs_tol=)]. *)
Definition math_isclose (a b rel_tol abs_tol : float) : res bool :=
  if (rel_tol <? 0) || (abs_tol <? 0) then Raise ValueError
  else if a =? b then Ok true
  else if is_infinity a || is_infinity b then Ok false
  else
    let diff := abs (b - a) in
    Ok ((diff <=? abs (rel_tol * b)) || (diff <=? abs (rel_tol * a))
        || (diff <=? abs_tol)).

(** ** The program *)

Record test_case : Set := mk_test
  { tc_a : float;
    tc_b : float;
    tc_spheritude_factor : float;
    tc_expected_output_tolerance : float }.

(** What [run_tests] prints, line by line; the formatting of the numbers is
    left out. *)
Inductive line : Set :=
| Banner
| CaseHeader (number : nat)
| Inputs (a b spheritude_factor : float)
| Calculated (calculated_h : float)
| Expected (expected : float)
| Status (passed : bool)
| Summary (all_tests_passed : bool).

Section Libm.

(** The C library's [exp] on binary64. *)
Variable c_exp : float -> float.

Definition math_exp : float -> res float := math_1 c_exp true.

(** The clamp at the head of [riemann_hypotenuse]. *)
Definition clamp (spheritude_factor : float) : float :=
  if spheritude_factor <? 0 then abs spheritude_factor else spheritude_factor.

(** The argument the exponential is taken at. *)
Definition exp_arg (spheritude_factor : float) : float :=
  clamp spheritude_factor / 10.0.

Definition riemann_hypotenuse (a b spheritude_factor : float) : res float :=
  let spheritude_factor := clamp spheritude_factor in
  a2 <- float_pow2 a ;;
  b2 <- float_pow2 b ;;
  let base_hypotenuse_squared := a2 + b2 in
  distortion_factor <- math_exp (spheritude_factor / 10.0) ;;
  riemann_h <- math_sqrt (base_hypotenuse_squared * distortion_factor) ;;
  Ok riemann_h.

(** The body of the [for] loop on one case: the classification and the five
    lines printed. *)
Definition tolerance_abs : float := 0.01.
Definition tolerance_rel : float := 1e-9.

Definition check_case (test : test_case) : res (float * bool) :=
  calculated_h <-
    riemann_hypotenuse (tc_a test) (tc_b test) (tc_spheritude_factor test) ;;
  is_close <-
    math_isclose calculated_h (tc_expected_output_tolerance test)
                 tolerance_rel tolerance_abs ;;
  Ok (calculated_h, is_close).

Definition case_lines (i : nat) (test : test_case) (calculated_h : float)
           (is_close : bool) : list line :=
  [ CaseHeader (i + 1);
    Inputs (tc_a test) (tc_b test) (tc_spheritude_factor test);
    Calculated calculated_h;
    Expected (tc_expected_output_tolerance test);
    Status is_close ].

(** The loop: [all_tests_passed] and the output so far are threaded through;
    an exception leaves the loop with what was printed before it. *)
Fixpoint run_loop (i : nat) (tests : list test_case)
         (all_tests_passed : bool) (out : list line)
  : list line * res bool :=
  match tests with
  | [] => (out, Ok all_tests_passed)
  | test :: rest =>
      match check_case test with
      | Raise e => (out, Raise e)
      | Ok (calculated_h, is_close) =>
          let all_tests_passed :=
            if negb is_close then false else all_tests_passed in
          run_loop (S i) rest all_tests_passed
                   (out ++ case_lines i test calculated_h is_close)
      end
  end.

(** [run_tests] on a list of cases: the lines printed and, when an exception
    escaped, the exception. *)
Definition run_cases (tests : list test_case) : list line * option exn :=
  match run_loop 0 tests true [Banner] with
  | (out, Ok all_tests_passed) => (out ++ [Summary all_tests_passed], None)
  | (out, Raise e) => (out, Some e)
  end.

Definition test_cases : list test_case :=
  [ mk_test 3.0 4.0 0.0 5.0;
    mk_test 5.0 12.0 1.0 13.67;
    mk_test 6.0 8.0 5.0 16.48;
    mk_test 0.0 0.0 10.0 0.0;
    mk_test 7.0 0.0 2.0 7.78;
    mk_test 3.0 4.0 (-1.0) 5.25 ].

Definition run_tests : list line * option exn := run_cases test_cases.


End Libm.

(** ** A reference exponential

    Argument reduction [x = n ln2 + r] with [ln2] split in two, a Taylor
    polynomial in [r] and a scaling by [2^n]; the thresholds are the largest
    argument whose exponential is finite and the smallest whose exponential is
    not zero. *)

Definition float_to_Z (f : float) : Z :=
  match Prim2SF f with
  | S754_finite s m e => (if s then Z.opp else fun z => z) (Z.shiftl (Zpos m) e)
  | _ => 0%Z
  end.

Definition ln2_hi : float := 0x1.62e42feep-1.
Definition ln2_lo : float := 0x1.a39ef35793c76p-33.
Definition inv_ln2 : float := 0x1.71547652b82fep+0.
Definition exp_overflow_threshold : float := 0x1.62e42fefa39efp+9.
Definition exp_underflow_threshold : float := -0x1.74910d52d3051p+9.
Definition round_magic : float := 0x1.8p52.

Fixpoint taylor (n : nat) (j : float) (r acc : float) : float :=
  match n with
  | O => acc
  | S n' => taylor n' (j - 1) r (1 + r * acc / j)
  end.

Definition ref_exp (x : float) : float :=
  if is_nan x then x
  else if exp_overflow_threshold <? x then infinity
  else if x <? exp_underflow_threshold then 0
  else
    let n := (x * inv_ln2 + round_magic) - round_magic in
    let r := (x - n * ln2_hi) - n * ln2_lo in
    Z.ldexp (taylor 14 14 r 1) (float_to_Z n).

(** The statuses a run printed, in order. *)
Definition statuses (out : list line) : list bool :=
  flat_map (fun l => match l with Status p => [p] | _ => [] end) out.

Definition summaries (out : list line) : list bool :=
  flat_map (fun l => match l with Summary p => [p] | _ => [] end) out.

(** The numbers of the cases a run printed, in order. *)
Definition headers (out : list line) : list nat :=
  flat_map (fun l => match l with CaseHeader n => [n] | _ => [] end) out.

(** The lines of a report whose cases, numbered from [i], came out as [rows]:
    for each case the value computed and the verdict. *)
Fixpoint report (i : nat) (rows : list (test_case * (float * bool))) : list line :=
  match rows with
  | [] => []
  | (test, (calculated_h, is_close)) :: rest =>
      case_lines i test calculated_h is_close ++ report (S i) rest
  end.

(** ** The function in exact arithmetic

    The same steps on real numbers: no rounding and no overflow. *)

Module Exact.

Definition riemann_hypotenuse (a b spheritude_factor : R) : R :=
  let spheritude_factor :=
    if Rlt_dec spheritude_factor 0 then Rabs spheritude_factor
    else spheritude_factor in
  let base_hypotenuse_squared := (a ^ 2 + b ^ 2)%R in
  let distortion_factor := Rtrigo_def.exp (spheritude_factor / 10) in
  R_sqrt.sqrt (base_hypotenuse_squared * distortion_factor).

End Exact.

(** ** Classes of floats, read on their sign, mantissa and exponent *)


(** The outcome of a rounding with sign [s]: a zero, a finite number or an
    infinity of that sign. *)
Definition sf_signed (s : bool) (x : spec_float) : Prop :=
  match x with
  | S754_zero s' | S754_infinity s' | S754_finite s' _ _ => s' = s
  | S754_nan => False
  end.

(** * Facts about binary64

  [Prim2SF] maps a float to its sign, mantissa and exponent, and the
  operations are specified on that image; the lemmas below read the
  predicates of the model there. *)

Section SpecFacts.

Local Open Scope Z_scope.

Lemma SFcompare_finite_refl s m e :
  SFcompare (S754_finite s m e) (S754_finite s m e) = Some Eq.
Proof.
  simpl. rewrite Z.compare_refl, Pos.compare_cont_refl.
  now destruct s.
Qed.

Lemma is_nan_spec x :
  is_nan x = match Prim2SF x with S754_nan => true | _ => false end.
Proof.
  unfold is_nan. rewrite FloatAxioms.eqb_spec. unfold SFeqb.
  destruct (Prim2SF x) as [s|s| |s m e].
  - reflexivity.
  - now destruct s.
  - reflexivity.
  - now rewrite SFcompare_finite_refl.
Qed.

Lemma is_infinity_spec x :
  is_infinity x = match Prim2SF x with S754_infinity _ => true | _ => false end.
Proof.
  unfold is_infinity. rewrite FloatAxioms.eqb_spec, abs_spec.
  change (Prim2SF infinity) with (S754_infinity false).
  now destruct (Prim2SF x) as [s|s| |s m e].
Qed.

Lemma is_finite_spec x :
  is_finite x =
  match Prim2SF x with S754_zero _ | S754_finite _ _ _ => true | _ => false end.
Proof.
  unfold is_finite. rewrite is_nan_spec, is_infinity_spec.
  now destruct (Prim2SF x).
Qed.


Lemma ltb_zero_spec x :
  (x <? 0)%float =
  match Prim2SF x with
  | S754_infinity true | S754_finite true _ _ => true
  | _ => false
  end.
Proof.
  rewrite FloatAxioms.ltb_spec. change (Prim2SF 0) with (S754_zero false).
  destruct (Prim2SF x) as [s|s| |s m e]; try reflexivity; now destruct s.
Qed.

(** A float at or above one that is not infinite is positive and finite. *)
Lemma ge_one_finite d :
  (1 <=? d)%float = true -> is_infinity d = false ->
  exists m e, Prim2SF d = S754_finite false m e.
Proof.
  rewrite FloatAxioms.leb_spec, is_infinity_spec.
  change (Prim2SF 1) with (S754_finite false 4503599627370496 (-52)).
  destruct (Prim2SF d) as [s|s| |s m e]; try discriminate.
  destruct s; [ discriminate | eauto ].
Qed.

(** *** Rounding keeps the sign *)

Lemma shr_1_nonneg mrs : 0 <= shr_m mrs -> 0 <= shr_m (shr_1 mrs).
Proof.
  destruct mrs as [m r s]. simpl.
  destruct m as [|p|p]; [ | destruct p | ]; simpl; lia.
Qed.

Lemma iter_shr_1_nonneg p :
  forall mrs, 0 <= shr_m mrs -> 0 <= shr_m (SpecFloat.iter_pos shr_1 p mrs).
Proof.
  induction p as [p IH|p IH|]; intros mrs H; simpl.
  - apply IH, IH, shr_1_nonneg, H.
  - apply IH, IH, H.
  - apply shr_1_nonneg, H.
Qed.

Lemma shr_nonneg mrs e n : 0 <= shr_m mrs -> 0 <= shr_m (fst (shr mrs e n)).
Proof.
  intros H. destruct n; simpl; auto using iter_shr_1_nonneg.
Qed.

Lemma shr_record_of_loc_m m l : shr_m (shr_record_of_loc m l) = m.
Proof. destruct l as [|[ | | ]]; reflexivity. Qed.

Lemma shr_fexp_nonneg m e l :
  0 <= m -> 0 <= shr_m (fst (shr_fexp prec emax m e l)).
Proof.
  intros H. unfold shr_fexp. apply shr_nonneg.
  now rewrite shr_record_of_loc_m.
Qed.

Lemma round_nearest_even_nonneg m l : 0 <= m -> 0 <= round_nearest_even m l.
Proof.
  intros H. destruct l as [|[ | | ]]; simpl; try lia.
  destruct (Z.even m); lia.
Qed.

Lemma binary_round_aux_signed s m e l :
  0 <= m -> sf_signed s (binary_round_aux prec emax s m e l).
Proof.
  intros H. unfold binary_round_aux.
  pose proof (shr_fexp_nonneg m e l H) as H1.
  destruct (shr_fexp prec emax m e l) as [mrs' e'] eqn:E1. simpl in H1.
  pose proof (shr_fexp_nonneg
                (round_nearest_even (shr_m mrs') (loc_of_shr_record mrs'))
                e' loc_Exact (round_nearest_even_nonneg _ _ H1)) as H2.
  destruct (shr_fexp prec emax _ e' loc_Exact) as [mrs'' e''] eqn:E2.
  simpl in H2.
  destruct (shr_m mrs'') as [|p|p].
  - reflexivity.
  - destruct (e'' <=? emax - prec); reflexivity.
  - lia.
Qed.

Lemma binary_round_signed s m e : sf_signed s (binary_round prec emax s m e).
Proof.
  unfold binary_round.
  destruct (shl_align m e _) as [mz ez].
  apply binary_round_aux_signed. lia.
Qed.


(** *** Signs of products, sums and square roots *)

Lemma SFmul_square_signed X :
  X <> S754_nan -> sf_signed false (SF64mul X X).
Proof.
  intros HX. destruct X as [s|s| |s m e]; simpl.
  - apply xorb_nilpotent.
  - apply xorb_nilpotent.
  - now elim HX.
  - rewrite xorb_nilpotent. now apply binary_round_aux_signed.
Qed.

Lemma SFadd_signed X Y :
  sf_signed false X -> sf_signed false Y -> sf_signed false (SF64add X Y).
Proof.
  destruct X as [s|s| |s m e]; simpl; try tauto; intros ->;
    destruct Y as [s'|s'| |s' m' e']; simpl; try tauto; intros ->;
    try reflexivity.
  apply binary_round_signed.
Qed.

Lemma SFmul_signed X m e :
  sf_signed false X -> sf_signed false (SF64mul X (S754_finite false m e)).
Proof.
  destruct X as [s|s| |s m' e']; simpl; try tauto; intros ->; try reflexivity.
  now apply binary_round_aux_signed.
Qed.

Lemma sqrtrem_fst_nonneg n : 0 <= fst (Z.sqrtrem n).
Proof.
  destruct n as [|p|p]; simpl; try lia.
  destruct (PosDef.Pos.sqrtrem p) as [q [ | r| ]]; simpl; lia.
Qed.

Lemma SFsqrt_signed X : sf_signed false X -> sf_signed false (SF64sqrt X).
Proof.
  destruct X as [s|s| |s m e]; simpl; try tauto; intros ->; try reflexivity.
  unfold SFsqrt_core_binary.
  match goal with |- context [Z.sqrtrem ?n] =>
    pose proof (sqrtrem_fst_nonneg n) as Hq; destruct (Z.sqrtrem n) as [q r]
  end.
  now apply binary_round_aux_signed.
Qed.

(** *** Shifts, digits and the range of a rounding *)

Lemma digits2_pos_size p : digits2_pos p = Pos.size p.
Proof. induction p; simpl; congruence. Qed.

Lemma Zdigits2_le m K : 0 <= m < 2 ^ K -> 0 <= K -> Zdigits2 m <= K.
Proof.
  intros [H0 H1] HK. destruct m as [|p|p]; simpl; try lia.
  rewrite digits2_pos_size.
  pose proof (Pos.size_le p) as H.
  assert (Hs : 2 ^ Z.pos (Pos.size p) <= 2 * Z.pos p).
  { rewrite <- Pos2Z.inj_pow. change (2 * Z.pos p) with (Z.pos p~0). lia. }
  destruct (Z_lt_le_dec K (Z.pos (Pos.size p))) as [Hlt|]; [ | lia ].
  exfalso.
  assert (Hp : 2 ^ (K + 1) <= 2 ^ Z.pos (Pos.size p)) by (apply Z.pow_le_mono_r; lia).
  rewrite Z.pow_add_r in Hp by lia. lia.
Qed.

Lemma pow2_xO p : 2 ^ Z.pos p~0 = 2 ^ Z.pos p * 2 ^ Z.pos p.
Proof. rewrite <- Z.pow_add_r by lia. f_equal. lia. Qed.

Lemma pow2_xI p : 2 ^ Z.pos p~1 = 2 * (2 ^ Z.pos p * 2 ^ Z.pos p).
Proof.
  rewrite <- Z.pow_add_r by lia. rewrite <- Z.pow_succ_r by lia. f_equal. lia.
Qed.

Lemma shr_1_half mrs : 0 <= shr_m mrs -> shr_m (shr_1 mrs) = shr_m mrs / 2.
Proof.
  destruct mrs as [m r s]. simpl. intros H.
  destruct m as [|p|p]; [ reflexivity | | lia ].
  destruct p; simpl.
  - rewrite Pos2Z.inj_xI. apply Z.div_unique with 1; lia.
  - rewrite Pos2Z.inj_xO. apply Z.div_unique with 0; lia.
  - reflexivity.
Qed.

Lemma iter_shr_1_div p :
  forall mrs, 0 <= shr_m mrs ->
    shr_m (SpecFloat.iter_pos shr_1 p mrs) = shr_m mrs / 2 ^ Z.pos p.
Proof.
  induction p as [p IH|p IH|]; intros mrs H; simpl SpecFloat.iter_pos.
  - rewrite IH, IH, shr_1_half by auto using iter_shr_1_nonneg, shr_1_nonneg.
    rewrite !Z.div_div by lia. now rewrite pow2_xI.
  - rewrite IH, IH by auto using iter_shr_1_nonneg.
    rewrite !Z.div_div by lia. now rewrite pow2_xO.
  - now apply shr_1_half.
Qed.

(** Where a shift ends: at the exponent the format asks for, or where it
    started when that is lower. *)
Lemma shr_fexp_exp m e l :
  snd (shr_fexp prec emax m e l) = Z.max e (fexp prec emax (Zdigits2 m + e)).
Proof.
  unfold shr_fexp, shr.
  destruct (fexp prec emax (Zdigits2 m + e) - e) as [|p|p] eqn:E; simpl; lia.
Qed.

Lemma shr_fexp_m m e l :
  0 <= m ->
  shr_m (fst (shr_fexp prec emax m e l)) =
  m / 2 ^ (snd (shr_fexp prec emax m e l) - e).
Proof.
  intros H. rewrite shr_fexp_exp. unfold shr_fexp, shr.
  destruct (fexp prec emax (Zdigits2 m + e) - e) as [|p|p] eqn:E; simpl fst.
  - rewrite shr_record_of_loc_m. replace (Z.max _ _ - e) with 0 by lia.
    now rewrite Z.div_1_r.
  - rewrite iter_shr_1_div by now rewrite shr_record_of_loc_m.
    rewrite shr_record_of_loc_m. f_equal. f_equal. lia.
  - rewrite shr_record_of_loc_m. replace (Z.max _ _ - e) with 0 by lia.
    now rewrite Z.div_1_r.
Qed.

Lemma round_nearest_even_bounds m l :
  m <= round_nearest_even m l <= m + 1.
Proof.
  destruct l as [|[ | | ]]; simpl; try lia. destruct (Z.even m); lia.
Qed.

Lemma fexp_le z b : z - 53 <= b -> -1074 <= b -> fexp prec emax z <= b.
Proof. unfold fexp, SpecFloat.emin, prec, emax. lia. Qed.

(** A number below [2^(K+e)], with [K + e] and [e] well inside the format's
    range, does not round to an infinity. *)
Lemma binary_round_aux_not_inf s m e l K :
  0 <= m < 2 ^ K -> 0 <= K -> K + e <= 1022 -> e <= 971 ->
  forall s', binary_round_aux prec emax s m e l <> S754_infinity s'.
Proof.
  intros Hm HK HKe He s'. unfold binary_round_aux.
  pose proof (shr_fexp_exp m e l) as He1.
  pose proof (shr_fexp_m m e l (proj1 Hm)) as Hm1.
  destruct (shr_fexp prec emax m e l) as [mrs' e1]. simpl in He1, Hm1.
  set (m1 := round_nearest_even (shr_m mrs') (loc_of_shr_record mrs')).
  pose proof (round_nearest_even_bounds (shr_m mrs') (loc_of_shr_record mrs')) as Hr.
  fold m1 in Hr.
  pose proof (shr_fexp_exp m1 e1 loc_Exact) as He2.
  destruct (shr_fexp prec emax m1 e1 loc_Exact) as [mrs'' e2]. simpl in He2.
  destruct (shr_m mrs''); try discriminate.
  destruct (e2 <=? emax - prec) eqn:E; try discriminate.
  exfalso. apply Z.leb_gt in E. unfold emax, prec in E.
  pose proof (Zdigits2_le m K Hm HK) as Hd.
  assert (H1 : e1 <= 971).
  { rewrite He1. apply Z.max_lub; [ lia | apply fexp_le; lia ]. }
  assert (H1' : e <= e1) by lia.
  (* the mantissa after the first shift is below 2^(max (K - (e1 - e)) 0) *)
  set (K1 := Z.max (K - (e1 - e)) 0).
  assert (Hm1' : 0 <= shr_m mrs' < 2 ^ K1).
  { rewrite Hm1. split.
    - apply Z.div_pos; [ lia | apply Z.pow_pos_nonneg; lia ].
    - apply Z.div_lt_upper_bound; [ apply Z.pow_pos_nonneg; lia | ].
      rewrite <- Z.pow_add_r by lia.
      eapply Z.lt_le_trans; [ apply Hm | apply Z.pow_le_mono_r; lia ]. }
  assert (Hd1 : Zdigits2 m1 <= K1 + 1).
  { apply Zdigits2_le; [ | lia ]. rewrite Z.pow_add_r by lia. lia. }
  assert (e2 <= 971); [ | lia ].
  rewrite He2. apply Z.max_lub; [ lia | apply fexp_le; lia ].
Qed.

Lemma Zdigits2_gt p : Z.pos p < 2 ^ Z.pos (digits2_pos p).
Proof.
  rewrite digits2_pos_size, <- Pos2Z.inj_pow. apply Pos2Z.pos_lt_pos, Pos.size_gt.
Qed.

Lemma bounded_range m e :
  bounded prec emax m e = true ->
  Z.pos (digits2_pos m) <= 53 /\ -1074 <= e <= 971.
Proof.
  unfold bounded, canonical_mantissa, fexp, SpecFloat.emin, prec, emax.
  intros H. apply andb_prop in H. destruct H as [H1 H2].
  apply Z.eqb_eq in H1. apply Z.leb_le in H2. lia.
Qed.

Lemma sqrt_lt_pow2 q n K : 0 <= q -> q * q <= n -> n < 2 ^ (2 * K) -> 0 <= K -> q < 2 ^ K.
Proof.
  intros Hq Hn HK H0.
  replace (2 * K) with (K + K) in HK by lia.
  rewrite Z.pow_add_r in HK by lia.
  assert (0 < 2 ^ K) by (apply Z.pow_pos_nonneg; lia).
  nia.
Qed.

Lemma SFsqrt_not_inf m e :
  bounded prec emax m e = true ->
  forall s', SF64sqrt (S754_finite false m e) <> S754_infinity s'.
Proof.
  intros Hb s'. apply bounded_range in Hb. destruct Hb as [Hd He].
  pose proof (Zdigits2_gt m) as Hm.
  unfold SF64sqrt, SFsqrt, SFsqrt_core_binary.
  change (Zdigits2 (Z.pos m)) with (Z.pos (digits2_pos m)).
  set (d := Z.pos (digits2_pos m)) in *.
  set (e' := Z.min (fexp prec emax (Z.div2 (d + e + 1))) (Z.div2 e)).
  assert (He' : -1074 <= e' <= 485 /\ 2 * e' <= e).
  { unfold e'. rewrite !Z.div2_div. unfold fexp, SpecFloat.emin, prec, emax.
    pose proof (Z.div_mod e 2). pose proof (Z.mod_pos_bound e 2).
    pose proof (Z.div_mod (d + e + 1) 2).
    pose proof (Z.mod_pos_bound (d + e + 1) 2). lia. }
  set (s := e - 2 * e').
  assert (Hs : 0 <= s) by (unfold s; lia).
  set (m' := match s with Z.pos _ => Z.shiftl (Z.pos m) s | 0 => Z.pos m | Z.neg _ => 0 end).
  assert (Hm' : m' = Z.pos m * 2 ^ s).
  { unfold m'. destruct s as [|p|p] eqn:E.
    - now rewrite Z.mul_1_r.
    - now rewrite Z.shiftl_mul_pow2.
    - lia. }
  pose proof (Z.sqrtrem_spec m') as Hq.
  destruct (Z.sqrtrem m') as [q r].
  assert (0 < 2 ^ s) by (apply Z.pow_pos_nonneg; lia).
  assert (Hpos : 0 <= m') by nia.
  specialize (Hq Hpos). cbv beta iota in Hq. destruct Hq as [Hq Hr].
  set (K := (d + s + 1) / 2).
  assert (HK : d + s <= 2 * K /\ 2 * K <= d + s + 1).
  { unfold K. pose proof (Z.div_mod (d + s + 1) 2).
    pose proof (Z.mod_pos_bound (d + s + 1) 2). lia. }
  apply binary_round_aux_not_inf with (K := K); try lia.
  split; [ nia | ].
  apply sqrt_lt_pow2 with (n := m'); try nia.
  rewrite Hm'. apply Z.lt_le_trans with (2 ^ d * 2 ^ s).
  - apply Z.mul_lt_mono_pos_r; lia.
  - rewrite <- Z.pow_add_r by lia. apply Z.pow_le_mono_r; lia.
Qed.

(** *** Multiplying by one *)






(** *** Dividing by ten *)




End SpecFacts.

(** * The operations of the model *)

Lemma square_signed x : is_nan x = false -> sf_signed false (Prim2SF (x * x)).
Proof.
  rewrite is_nan_spec, mul_spec. intros H. apply SFmul_square_signed.
  intros E. now rewrite E in H.
Qed.

Lemma signed_not_nan s x : sf_signed s (Prim2SF x) -> is_nan x = false.
Proof. rewrite is_nan_spec. now destruct (Prim2SF x). Qed.


(** [math.sqrt] at a float that is not negative: no exception, and a result
    that is not negative. *)
Lemma math_sqrt_signed y :
  sf_signed false (Prim2SF y) ->
  math_sqrt y = Ok (sqrt y) /\ sf_signed false (Prim2SF (sqrt y)).
Proof.
  intros Hy.
  assert (Hs : sf_signed false (Prim2SF (sqrt y))).
  { rewrite sqrt_spec. now apply SFsqrt_signed. }
  split; [ | exact Hs ].
  unfold math_sqrt, math_1.
  rewrite (signed_not_nan _ _ Hs). simpl andb.
  replace (is_infinity (sqrt y) && is_finite y)%bool with false; [ reflexivity | ].
  symmetry. rewrite is_infinity_spec, is_finite_spec, sqrt_spec.
  pose proof (Prim2SF_valid y) as Hv.
  destruct (Prim2SF y) as [s|s| |s m e]; try reflexivity.
  - simpl in Hy. subst s. now rewrite andb_false_r.
  - simpl in Hy. subst s.
    pose proof (SFsqrt_not_inf m e Hv) as Hi.
    destruct (SF64sqrt _) as [s1|s1| |s1 m1 e1]; try reflexivity.
    now elim (Hi s1).
Qed.

Lemma float_pow2_cases x :
  float_pow2 x = if pow2_overflows x then Raise OverflowError else Ok (x * x)%float.
Proof. reflexivity. Qed.

Section Returns.

Variable c_exp : float -> float.

(** What [math.exp] does where the C function returns a number at or above
    one. *)
Lemma math_exp_ge_one x :
  (1 <=? c_exp x)%float = true ->
  math_exp c_exp x =
  if (is_infinity (c_exp x) && is_finite x)%bool then Raise OverflowError
  else Ok (c_exp x).
Proof.
  intros H. unfold math_exp, math_1.
  replace (is_nan (c_exp x)) with false; [ reflexivity | ].
  symmetry. rewrite is_nan_spec. rewrite FloatAxioms.leb_spec in H.
  destruct (Prim2SF (c_exp x)); try reflexivity.
  now destruct (Prim2SF 1).
Qed.

Lemma riemann_hypotenuse_value a b k :
  is_nan a = false -> is_nan b = false ->
  pow2_overflows a = false -> pow2_overflows b = false ->
  (1 <=? c_exp (exp_arg k))%float = true ->
  is_infinity (c_exp (exp_arg k)) = false ->
  riemann_hypotenuse c_exp a b k
  = Ok (sqrt ((a * a + b * b) * c_exp (exp_arg k)))%float
  /\ sf_signed false (Prim2SF (sqrt ((a * a + b * b) * c_exp (exp_arg k)))%float).
Proof.
  intros Ha Hb Hoa Hob Hd Hi.
  unfold riemann_hypotenuse. fold (exp_arg k).
  rewrite !float_pow2_cases, Hoa, Hob. cbn [Py.bind].
  rewrite (math_exp_ge_one _ Hd), Hi. cbn [andb Py.bind].
  destruct (ge_one_finite _ Hd Hi) as (m & e & Hm).
  assert (Hy : sf_signed false
                 (Prim2SF ((a * a + b * b) * c_exp (exp_arg k))%float)).
  { rewrite mul_spec, Hm. apply SFmul_signed.
    rewrite add_spec. apply SFadd_signed; now apply square_signed. }
  destruct (math_sqrt_signed _ Hy) as [E Hs].
  rewrite E. cbn [Py.bind]. now split.
Qed.

End Returns.

(** ** The clamp *)

Lemma clamp_abs k : Prim2SF k <> S754_zero true -> clamp k = abs k.
Proof.
  intros Hz. unfold clamp. rewrite ltb_zero_spec.
  destruct (Prim2SF k) as [s|s| |s m e] eqn:E.
  - destruct s; [ now elim Hz | ].
    apply Prim2SF_inj. now rewrite abs_spec, E.
  - destruct s; [ reflexivity | ].
    apply Prim2SF_inj. now rewrite abs_spec, E.
  - apply Prim2SF_inj. now rewrite abs_spec, E.
  - destruct s; [ reflexivity | ].
    apply Prim2SF_inj. now rewrite abs_spec, E.
Qed.

Lemma abs_opp k : abs (- k) = abs k.
Proof.
  apply Prim2SF_inj. rewrite !abs_spec, opp_spec. now destruct (Prim2SF k).
Qed.

Lemma Prim2SF_zero_cases k s : Prim2SF k = S754_zero s -> k = if s then -0 else 0.
Proof.
  intros E. rewrite <- (SF2Prim_Prim2SF k), E. now destruct s.
Qed.

Lemma clamp_opp k : (forall s, Prim2SF k <> S754_zero s) -> clamp (- k) = clamp k.
Proof.
  intros Hz. rewrite !clamp_abs, abs_opp; auto.
  rewrite opp_spec. intros E. destruct (Prim2SF k) as [s| | |]; try discriminate.
  now elim (Hz s).
Qed.



Section Properties.

Variable c_exp : float -> float.

Lemma math_exp_zero_sign :
  c_exp (-0) = c_exp 0 -> math_exp c_exp (-0) = math_exp c_exp 0.
Proof. intros H. unfold math_exp, math_1. now rewrite H. Qed.

Lemma math_exp_arg_opp k :
  c_exp (-0) = c_exp 0 ->
  math_exp c_exp (exp_arg (- k)) = math_exp c_exp (exp_arg k).
Proof.
  intros H0.
  destruct (Prim2SF k) as [s|s| |s m e] eqn:E.
  - apply Prim2SF_zero_cases in E. subst k.
    destruct s.
    + change (exp_arg (- (-0))) with 0. change (exp_arg (-0)) with (-0).
      symmetry. apply (math_exp_zero_sign H0).
    + change (exp_arg (- 0)) with (-0). change (exp_arg 0) with 0.
      apply (math_exp_zero_sign H0).
  - unfold exp_arg. rewrite clamp_opp; [ reflexivity | ]. now rewrite E.
  - unfold exp_arg. rewrite clamp_opp; [ reflexivity | ]. now rewrite E.
  - unfold exp_arg. rewrite clamp_opp; [ reflexivity | ]. now rewrite E.
Qed.


End Properties.

Section Claims.

Variable c_exp : float -> float.

Lemma riemann_hypotenuse_unfold a b k :
  riemann_hypotenuse c_exp a b k =
  (a2 <- float_pow2 a ;;
   b2 <- float_pow2 b ;;
   distortion_factor <- math_exp c_exp (exp_arg k) ;;
   math_sqrt ((a2 + b2) * distortion_factor)).
Proof.
  unfold riemann_hypotenuse. fold (exp_arg k).
  destruct (float_pow2 a); [ | reflexivity ]. cbn [Py.bind].
  destruct (float_pow2 b); [ | reflexivity ]. cbn [Py.bind].
  destruct (math_exp c_exp (exp_arg k)); [ | reflexivity ]. cbn [Py.bind].
  now destruct (math_sqrt _).
Qed.

(** C7: the function is even in the distortion factor: [k] and [-k] give the
    same outcome, value or exception, for all floats [a], [b], [k]; all that
    is asked of the C library is that its [exp] agrees at [-0.0] and [0.0]. *)
Theorem riemann_hypotenuse_even a b k :
  c_exp (-0) = c_exp 0 ->
  riemann_hypotenuse c_exp a b k = riemann_hypotenuse c_exp a b (- k).
Proof.
  intros H0. rewrite !riemann_hypotenuse_unfold.
  now rewrite (math_exp_arg_opp c_exp k H0).
Qed.






Lemma mul_zero_pos d :
  (1 <=? d) = true -> is_infinity d = false -> 0 * d = 0.
Proof.
  intros Hd Hi. destruct (ge_one_finite d Hd Hi) as (m & e & E).
  apply Prim2SF_inj. rewrite mul_spec, E. reflexivity.
Qed.


End Claims.

(** * The runner *)

Section Runner.

Variable c_exp : float -> float.

Lemma math_isclose_tolerances a b :
  exists v, math_isclose a b 1e-9 0.01 = Ok v.
Proof.
  unfold math_isclose.
  change ((1e-9 <? 0) || (0.01 <? 0))%bool with false. cbv iota.
  destruct (a =? b); [ eauto | ].
  destruct (is_infinity a || is_infinity b)%bool; eauto.
Qed.

Lemma run_loop_report tests rs :
  Forall2 (fun t r => check_case c_exp t = Ok r) tests rs ->
  forall i all_tests_passed out,
    run_loop c_exp i tests all_tests_passed out
    = (out ++ report i (combine tests rs),
       Ok (all_tests_passed && forallb snd rs)%bool).
Proof.
  induction 1 as [|t [h c] tests rs Ht _ IH]; intros i all_passed out.
  - cbn. now rewrite app_nil_r, andb_true_r.
  - cbn [run_loop combine report forallb snd]. rewrite Ht, IH.
    rewrite <- app_assoc. f_equal. f_equal.
    now destruct c, all_passed.
Qed.

Lemma run_cases_report tests rs :
  Forall2 (fun t r => check_case c_exp t = Ok r) tests rs ->
  run_cases c_exp tests
  = (Banner :: report 0 (combine tests rs) ++ [Summary (forallb snd rs)], None).
Proof.
  intros H. unfold run_cases. now rewrite (run_loop_report _ _ H).
Qed.

(** C10: on cases where the function returns, the runner goes through every
    case in order, prints for each its verdict, which is [math.isclose] with
    [rel_tol = 1e-9] and [abs_tol = 0.01] against the expected value, never
    stops at a failed verdict, and ends with one summary, which says whether
    every verdict was a pass. *)
Theorem run_cases_classifies_every_case tests :
  (forall t, In t tests ->
     exists h, riemann_hypotenuse c_exp (tc_a t) (tc_b t) (tc_spheritude_factor t)
               = Ok h) ->
  exists rs,
    Forall2
      (fun t r =>
         riemann_hypotenuse c_exp (tc_a t) (tc_b t) (tc_spheritude_factor t)
         = Ok (fst r)
         /\ math_isclose (fst r) (tc_expected_output_tolerance t) 1e-9 0.01
            = Ok (snd r))
      tests rs
    /\ run_cases c_exp tests
       = (Banner :: report 0 (combine tests rs) ++ [Summary (forallb snd rs)],
          None).
Proof.
  intros Hall.
  assert (Hrs : exists rs,
             Forall2
               (fun t r =>
                  riemann_hypotenuse c_exp (tc_a t) (tc_b t)
                                     (tc_spheritude_factor t) = Ok (fst r)
                  /\ math_isclose (fst r) (tc_expected_output_tolerance t)
                                  1e-9 0.01 = Ok (snd r))
               tests rs).
  { induction tests as [|t tests IH].
    - exists []. constructor.
    - destruct IH as [rs Hrs]; [ intros t' Ht'; apply Hall; now right | ].
      destruct (Hall t (or_introl eq_refl)) as [h Hh].
      destruct (math_isclose_tolerances h (tc_expected_output_tolerance t))
        as [v Hv].
      exists ((h, v) :: rs). constructor; auto. }
  destruct Hrs as [rs Hrs]. exists rs. split; [ exact Hrs | ].
  apply run_cases_report.
  clear Hall. induction Hrs as [|t [h v] tests rs [Hh Hv] _ IH]; constructor; auto.
  unfold check_case. cbn [fst snd] in Hh, Hv. rewrite Hh. cbn [Py.bind].
  change tolerance_rel with 1e-9. change tolerance_abs with 0.01.
  now rewrite Hv.
Qed.

End Runner.

Lemma run_tests_ref :
  run_tests ref_exp =
  ([Banner;
    CaseHeader 1; Inputs 3 4 0; Calculated 5; Expected 5; Status true;
    CaseHeader 2; Inputs 5 12 1; Calculated 13.666524252888314; Expected 13.67;
    Status true;
    CaseHeader 3; Inputs 6 8 5; Calculated 12.840254166877415; Expected 16.48;
    Status false;
    CaseHeader 4; Inputs 0 0 10; Calculated 0; Expected 0; Status true;
    CaseHeader 5; Inputs 7 0 2; Calculated 7.7361964265295331; Expected 7.78;
    Status false;
    CaseHeader 6; Inputs 3 4 (-1); Calculated 5.2563554818801199; Expected 5.25;
    Status true;
    Summary false], None).
Proof. vm_compute. reflexivity. Qed.

(** C3: on its six literal cases the runner marks the third and the fifth as
    failed, raises nothing, and its single summary, the last line, says that
    not all cases passed. *)
Theorem run_tests_reports_failure :
  statuses (fst (run_tests ref_exp)) = [true; true; false; true; false; true]
  /\ summaries (fst (run_tests ref_exp)) = [false]
  /\ last (fst (run_tests ref_exp)) Banner = Summary false
  /\ snd (run_tests ref_exp) = None.
Proof. rewrite run_tests_ref. repeat split. Qed.

(** C2: the function misses two of the expected values of its own tests:
    it returns 12.84 where 16.48 is expected and 7.74 where 7.78 is, and
    [math.isclose] with the tolerance of 0.01 rejects both. *)
Theorem own_tests_fail :
  check_case ref_exp (mk_test 6.0 8.0 5.0 16.48) = Ok (12.840254166877415, false)
  /\ check_case ref_exp (mk_test 7.0 0.0 2.0 7.78) = Ok (7.7361964265295331, false).
Proof. split; vm_compute; reflexivity. Qed.

(** * Exact arithmetic *)

Section ExactArithmetic.

Local Open Scope R_scope.



End ExactArithmetic.

(** * Concrete inputs *)







(** * The theorems at the sixth case of the tests: [a = 3], [b = 4],
    [k = -1] *)

Lemma riemann_hypotenuse_even_witness :
  ref_exp (-0) = ref_exp 0
  /\ riemann_hypotenuse ref_exp 3 4 (-1) = riemann_hypotenuse ref_exp 3 4 (- -1).
Proof.
  assert (H : ref_exp (-0) = ref_exp 0) by (vm_compute; reflexivity).
  split; [ exact H | ].
  exact (riemann_hypotenuse_even ref_exp 3 4 (-1) H).
Defined.






Lemma run_cases_classifies_every_case_witness :
  (forall t, In t test_cases ->
     exists h, riemann_hypotenuse ref_exp (tc_a t) (tc_b t)
                                  (tc_spheritude_factor t) = Ok h)
  /\ exists rs,
      Forall2
        (fun t r =>
           riemann_hypotenuse ref_exp (tc_a t) (tc_b t) (tc_spheritude_factor t)
           = Ok (fst r)
           /\ math_isclose (fst r) (tc_expected_output_tolerance t) 1e-9 0.01
              = Ok (snd r))
        test_cases rs
      /\ run_cases ref_exp test_cases
         = (Banner :: report 0 (combine test_cases rs)
              ++ [Summary (forallb snd rs)], None).
Proof.
  assert (H : forall t, In t test_cases ->
              exists h, riemann_hypotenuse ref_exp (tc_a t) (tc_b t)
                                           (tc_spheritude_factor t) = Ok h).
  { intros t Ht. unfold test_cases in Ht. simpl in Ht.
    repeat (destruct Ht as [<-|Ht]; [ eexists; vm_compute; reflexivity | ]).
    elim Ht. }
  split; [ exact H | ].
  exact (run_cases_classifies_every_case ref_exp test_cases H).
Defined.

(** * Further properties of the code *)

(** ** More on the clamp and the squares *)

Lemma clamp_not_negative k : (clamp k <? 0) = false.
Proof.
  unfold clamp. destruct (k <? 0) eqn:E; [ | exact E ].
  rewrite ltb_zero_spec, abs_spec. now destruct (Prim2SF k).
Qed.

Lemma Prim2SF_neg_zero k : Prim2SF k = S754_zero true -> k = -0.
Proof. intros E. now apply (Prim2SF_zero_cases k true). Qed.

(** X1: after the clamp the factor is never below zero, clamping twice
    changes nothing, and the clamp is the absolute value except at [-0.0],
    which it leaves as it is. *)
Theorem clamp_is_abs_but_at_neg_zero k :
  (clamp k <? 0) = false
  /\ clamp (clamp k) = clamp k
  /\ (k = -0 /\ clamp k = -0 \/ clamp k = abs k).
Proof.
  split; [ apply clamp_not_negative | split ].
  - unfold clamp at 1. now rewrite clamp_not_negative.
  - destruct (Prim2SF k) as [[|]| | |] eqn:E;
      try (right; apply clamp_abs; rewrite E; discriminate).
    left. apply Prim2SF_neg_zero in E. subst k. split; reflexivity.
Qed.

Lemma mul_opp_opp x : (- x) * (- x) = x * x.
Proof.
  apply Prim2SF_inj. rewrite !mul_spec, opp_spec.
  destruct (Prim2SF x) as [s|s| |s m e]; try reflexivity;
    cbv beta iota delta [SF64mul SFmul SFopp]; now destruct s.
Qed.

Lemma is_finite_opp x : is_finite (- x) = is_finite x.
Proof. rewrite !is_finite_spec, opp_spec. now destruct (Prim2SF x). Qed.

Lemma float_pow2_opp x : float_pow2 (- x) = float_pow2 x.
Proof. unfold float_pow2. now rewrite mul_opp_opp, is_finite_opp. Qed.

Lemma SFadd_comm X Y : SF64add X Y = SF64add Y X.
Proof.
  destruct X as [s|s| |s m e], Y as [s'|s'| |s' m' e'];
    try reflexivity;
    try (cbv beta iota delta [SF64add SFadd]; now destruct s, s').
  cbv beta iota delta [SF64add SFadd].
  rewrite (Z.min_comm e' e). cbv zeta. f_equal. apply Z.add_comm.
Qed.

Lemma add_comm x y : x + y = y + x.
Proof. apply Prim2SF_inj. rewrite !add_spec. apply SFadd_comm. Qed.

Section Symmetries.

Variable c_exp : float -> float.

(** X2: the signs of the two dimensions do not matter: negating [a] or [b]
    leaves the outcome, value or exception, unchanged. *)
Theorem riemann_hypotenuse_sign_free a b k :
  riemann_hypotenuse c_exp (- a) b k = riemann_hypotenuse c_exp a b k
  /\ riemann_hypotenuse c_exp a (- b) k = riemann_hypotenuse c_exp a b k.
Proof.
  unfold riemann_hypotenuse. now rewrite !float_pow2_opp.
Qed.

(** X3: the two dimensions can be exchanged: the outcome, value or exception,
    is the same. *)
Theorem riemann_hypotenuse_swap a b k :
  riemann_hypotenuse c_exp a b k = riemann_hypotenuse c_exp b a k.
Proof.
  rewrite !riemann_hypotenuse_unfold, !float_pow2_cases.
  destruct (pow2_overflows a), (pow2_overflows b); cbn [Py.bind]; try reflexivity.
  now rewrite add_comm.
Qed.

End Symmetries.

(** ** Not-a-number and infinite dimensions *)

Lemma add_nan_l x : nan + x = nan.
Proof. apply Prim2SF_inj. rewrite add_spec. reflexivity. Qed.

Lemma add_nan_r x : x + nan = nan.
Proof.
  apply Prim2SF_inj. rewrite add_spec.
  change (Prim2SF nan) with S754_nan. now destruct (Prim2SF x).
Qed.

Lemma mul_nan_l x : nan * x = nan.
Proof. apply Prim2SF_inj. rewrite mul_spec. reflexivity. Qed.


Section Edges.

Variable c_exp : float -> float.

(** X4: a NaN dimension is not rejected: where the other square and the
    exponential do not raise, the function returns NaN. *)
Theorem riemann_hypotenuse_nan_dimension b k d :
  pow2_overflows b = false ->
  math_exp c_exp (exp_arg k) = Ok d ->
  riemann_hypotenuse c_exp nan b k = Ok nan
  /\ riemann_hypotenuse c_exp b nan k = Ok nan.
Proof.
  intros Hb Hd.
  rewrite !riemann_hypotenuse_unfold, !float_pow2_cases, Hb, Hd.
  change (pow2_overflows nan) with false. cbn [Py.bind].
  change (nan * nan) with nan.
  now rewrite add_nan_l, add_nan_r, mul_nan_l.
Qed.


End Edges.

Lemma riemann_hypotenuse_nan_dimension_witness :
  pow2_overflows 4 = false
  /\ math_exp ref_exp (exp_arg 1) = Ok 1.1051709180756477
  /\ riemann_hypotenuse ref_exp nan 4 1 = Ok nan
  /\ riemann_hypotenuse ref_exp 4 nan 1 = Ok nan.
Proof.
  assert (Hb : pow2_overflows 4 = false) by reflexivity.
  assert (Hd : math_exp ref_exp (exp_arg 1) = Ok 1.1051709180756477)
    by (vm_compute; reflexivity).
  repeat (split; [ assumption | ]).
  exact (riemann_hypotenuse_nan_dimension ref_exp 4 1 _ Hb Hd).
Defined.


(** ** The runner on an exception, and the shape of its output *)

Section RunnerEdges.

Variable c_exp : float -> float.

Lemma run_loop_app pre rs :
  Forall2 (fun t r => check_case c_exp t = Ok r) pre rs ->
  forall rest i all_tests_passed out,
    run_loop c_exp i (pre ++ rest) all_tests_passed out
    = run_loop c_exp (i + length pre)%nat rest
               (all_tests_passed && forallb snd rs)%bool
               (out ++ report i (combine pre rs)).
Proof.
  induction 1 as [|t [h c] pre rs Ht _ IH]; intros rest i all_passed out.
  - cbn. now rewrite Nat.add_0_r, app_nil_r, andb_true_r.
  - cbn [app run_loop combine report forallb snd length]. rewrite Ht, IH.
    rewrite <- app_assoc, Nat.add_succ_comm. f_equal.
    now destruct c, all_passed.
Qed.

Lemma check_case_raises t e :
  riemann_hypotenuse c_exp (tc_a t) (tc_b t) (tc_spheritude_factor t) = Raise e ->
  check_case c_exp t = Raise e.
Proof. intros H. unfold check_case. now rewrite H. Qed.

(** X6: an exception of the function ends the run: the cases before it are
    reported, the later ones are not run, no summary is printed and the
    exception escapes. *)
Theorem run_cases_stops_at_exception pre rs t post e :
  Forall2 (fun t r => check_case c_exp t = Ok r) pre rs ->
  riemann_hypotenuse c_exp (tc_a t) (tc_b t) (tc_spheritude_factor t) = Raise e ->
  run_cases c_exp (pre ++ t :: post)
  = (Banner :: report 0 (combine pre rs), Some e).
Proof.
  intros Hpre Ht. unfold run_cases. rewrite (run_loop_app _ _ Hpre).
  cbn [run_loop]. now rewrite (check_case_raises _ _ Ht).
Qed.

Lemma statuses_app out1 out2 : statuses (out1 ++ out2) = statuses out1 ++ statuses out2.
Proof. apply flat_map_app. Qed.

Lemma summaries_app out1 out2 :
  summaries (out1 ++ out2) = summaries out1 ++ summaries out2.
Proof. apply flat_map_app. Qed.

Lemma headers_app out1 out2 : headers (out1 ++ out2) = headers out1 ++ headers out2.
Proof. apply flat_map_app. Qed.

Lemma report_lines i tests :
  forall rs, length rs = length tests ->
    statuses (report i (combine tests rs)) = map snd rs
    /\ summaries (report i (combine tests rs)) = []
    /\ headers (report i (combine tests rs)) = seq (i + 1)%nat (length tests)
    /\ length (report i (combine tests rs)) = (5 * length tests)%nat.
Proof.
  revert i. induction tests as [|t tests IH]; intros i [|[h c] rs] Hlen;
    try discriminate.
  - repeat split.
  - injection Hlen as Hlen. destruct (IH (S i) rs Hlen) as (H1 & H2 & H3 & H4).
    cbn [combine report]. unfold case_lines.
    cbn [app statuses summaries headers flat_map map snd length seq].
    fold (statuses (report (S i) (combine tests rs))).
    fold (summaries (report (S i) (combine tests rs))).
    fold (headers (report (S i) (combine tests rs))).
    rewrite H1, H2, H3, H4. repeat split; try reflexivity. lia.
Qed.

(** X7: the shape of the output of a run without exception: one verdict per
    case, the cases numbered from 1 in order, [5 n + 2] lines, and one summary,
    the last line, which is the conjunction of the verdicts printed. *)
Theorem run_cases_output_shape tests rs :
  Forall2 (fun t r => check_case c_exp t = Ok r) tests rs ->
  let out := fst (run_cases c_exp tests) in
  statuses out = map snd rs
  /\ headers out = seq 1 (length tests)
  /\ summaries out = [forallb (fun p => p) (statuses out)]
  /\ length out = (5 * length tests + 2)%nat
  /\ last out Banner = Summary (forallb (fun p => p) (statuses out)).
Proof.
  intros H. cbv zeta. rewrite (run_cases_report _ _ _ H). cbn [fst].
  assert (Hlen : length rs = length tests) by (symmetry; eapply Forall2_length, H).
  destruct (report_lines 0 tests rs Hlen) as (H1 & H2 & H3 & H4).
  assert (Hst : statuses (Banner :: report 0 (combine tests rs)
                            ++ [Summary (forallb snd rs)]) = map snd rs).
  { change (Banner :: ?l) with ([Banner] ++ l).
    rewrite !statuses_app, H1. cbn. now rewrite app_nil_r. }
  assert (Hall : forallb snd rs = forallb (fun p => p) (map snd rs)).
  { clear. induction rs as [|[h c] rs IH]; cbn; congruence. }
  rewrite Hst. repeat split.
  - change (Banner :: ?l) with ([Banner] ++ l).
    rewrite !headers_app, H3. cbn. now rewrite app_nil_r.
  - change (Banner :: ?l) with ([Banner] ++ l).
    rewrite !summaries_app, H2. cbn. now rewrite Hall.
  - cbn [length]. rewrite length_app, H4. cbn. lia.
  - change (Banner :: ?l ++ ?s) with ((Banner :: l) ++ s).
    rewrite last_last. now rewrite Hall.
Qed.

End RunnerEdges.

Lemma run_cases_stops_at_exception_witness :
  Forall2 (fun t r => check_case ref_exp t = Ok r)
          [mk_test 3.0 4.0 0.0 5.0] [(5, true)]
  /\ riemann_hypotenuse ref_exp 0 0 10000 = Raise OverflowError
  /\ run_cases ref_exp
       ([mk_test 3.0 4.0 0.0 5.0] ++ mk_test 0 0 10000 0 :: [mk_test 3.0 4.0 1.0 5.0])
     = (Banner :: report 0 (combine [mk_test 3.0 4.0 0.0 5.0] [(5, true)]),
        Some OverflowError).
Proof.
  assert (H1 : Forall2 (fun t r => check_case ref_exp t = Ok r)
                       [mk_test 3.0 4.0 0.0 5.0] [(5, true)]).
  { constructor; [ vm_compute; reflexivity | constructor ]. }
  assert (H2 : riemann_hypotenuse ref_exp 0 0 10000 = Raise OverflowError)
    by (vm_compute; reflexivity).
  repeat (split; [ assumption | ]).
  exact (run_cases_stops_at_exception ref_exp _ _ (mk_test 0 0 10000 0)
           [mk_test 3.0 4.0 1.0 5.0] OverflowError H1 H2).
Defined.

Lemma run_cases_output_shape_witness :
  Forall2 (fun t r => check_case ref_exp t = Ok r)
          [mk_test 3.0 4.0 0.0 5.0; mk_test 6.0 8.0 5.0 16.48]
          [(5, true); (12.840254166877415, false)]
  /\ let out := fst (run_cases ref_exp
                       [mk_test 3.0 4.0 0.0 5.0; mk_test 6.0 8.0 5.0 16.48]) in
     statuses out = map snd [(5, true); (12.840254166877415, false)]
     /\ headers out = seq 1 2
     /\ summaries out = [forallb (fun p => p) (statuses out)]
     /\ length out = (5 * 2 + 2)%nat
     /\ last out Banner = Summary (forallb (fun p => p) (statuses out)).
Proof.
  assert (H : Forall2 (fun t r => check_case ref_exp t = Ok r)
                [mk_test 3.0 4.0 0.0 5.0; mk_test 6.0 8.0 5.0 16.48]
                [(5, true); (12.840254166877415, false)]).
  { repeat constructor; vm_compute; reflexivity. }
  split; [ exact H | ].
  exact (run_cases_output_shape ref_exp _ _ H).
Defined.

(** ** The tests on any C library *)

Section AnyLibrary.

Variable c_exp : float -> float.

Lemma check_case_returns a b k expected :
  is_nan a = false -> is_nan b = false ->
  pow2_overflows a = false -> pow2_overflows b = false ->
  (1 <=? c_exp (exp_arg k)) = true ->
  is_infinity (c_exp (exp_arg k)) = false ->
  exists v,
    check_case c_exp (mk_test a b k expected)
    = Ok (sqrt ((a * a + b * b) * c_exp (exp_arg k)), v)
    /\ math_isclose (sqrt ((a * a + b * b) * c_exp (exp_arg k))) expected
                    1e-9 0.01 = Ok v.
Proof.
  intros Ha Hb Hoa Hob Hd Hi.
  destruct (riemann_hypotenuse_value c_exp a b k Ha Hb Hoa Hob Hd Hi) as [E _].
  destruct (math_isclose_tolerances
              (sqrt ((a * a + b * b) * c_exp (exp_arg k))) expected) as [v Hv].
  exists v. split; [ | exact Hv ].
  unfold check_case. cbn [tc_a tc_b tc_spheritude_factor
                          tc_expected_output_tolerance].
  rewrite E. cbn [Py.bind].
  change tolerance_rel with 1e-9. change tolerance_abs with 0.01.
  now rewrite Hv.
Qed.

(** X8: whatever the C library's [exp], as long as it returns [1.0] at [0.0]
    and finite numbers at or above one at the four other arguments the tests
    reach, [run_tests] raises nothing, prints its six verdicts and a summary,
    and the first and the fourth case pass. *)
Theorem run_tests_completes :
  c_exp 0 = 1 ->
  (forall x, In x [0.1; 0.5; 1; 0.2] ->
     (1 <=? c_exp x) = true /\ is_infinity (c_exp x) = false) ->
  exists v2 v3 v5 v6,
    snd (run_tests c_exp) = None
    /\ statuses (fst (run_tests c_exp)) = [true; v2; v3; true; v5; v6]
    /\ summaries (fst (run_tests c_exp)) = [v2 && v3 && v5 && v6]%bool.
Proof.
  intros H0 Hx.
  assert (H01 : (1 <=? c_exp 0.1) = true /\ is_infinity (c_exp 0.1) = false)
    by (apply Hx; simpl; tauto).
  assert (H05 : (1 <=? c_exp 0.5) = true /\ is_infinity (c_exp 0.5) = false)
    by (apply Hx; simpl; tauto).
  assert (H10 : (1 <=? c_exp 1) = true /\ is_infinity (c_exp 1) = false)
    by (apply Hx; simpl; tauto).
  assert (H02 : (1 <=? c_exp 0.2) = true /\ is_infinity (c_exp 0.2) = false)
    by (apply Hx; simpl; tauto).
  assert (H00 : (1 <=? c_exp 0) = true /\ is_infinity (c_exp 0) = false)
    by (rewrite H0; split; reflexivity).
  destruct (check_case_returns 3 4 0 5) as (v1 & E1 & I1);
    try reflexivity; try apply H00.
  destruct (check_case_returns 5 12 1 13.67) as (v2 & E2 & _);
    try reflexivity; try apply H01.
  destruct (check_case_returns 6 8 5 16.48) as (v3 & E3 & _);
    try reflexivity; try apply H05.
  destruct (check_case_returns 0 0 10 0) as (v4 & E4 & I4);
    try reflexivity; try apply H10.
  destruct (check_case_returns 7 0 2 7.78) as (v5 & E5 & _);
    try reflexivity; try apply H02.
  destruct (check_case_returns 3 4 (-1) 5.25) as (v6 & E6 & _);
    try reflexivity; try apply H01.
  (* the first and the fourth verdict *)
  change (exp_arg 0) with 0 in I1. rewrite H0 in I1.
  assert (Hv1 : v1 = true) by (vm_compute in I1; congruence).
  change (exp_arg 10) with 1 in I4.
  change (0 * 0 + 0 * 0) with 0 in I4.
  rewrite (mul_zero_pos _ (proj1 H10) (proj2 H10)) in I4.
  assert (Hv4 : v4 = true) by (vm_compute in I4; congruence).
  subst v1 v4.
  exists v2, v3, v5, v6.
  unfold run_tests, run_cases, test_cases. cbn [run_loop].
  rewrite E1. cbn [negb]. rewrite E2, E3, E4, E5, E6.
  destruct v2, v3, v5, v6; repeat split.
Qed.

End AnyLibrary.

Lemma run_tests_completes_witness :
  ref_exp 0 = 1
  /\ (forall x, In x [0.1; 0.5; 1; 0.2] ->
        (1 <=? ref_exp x) = true /\ is_infinity (ref_exp x) = false)
  /\ exists v2 v3 v5 v6,
      snd (run_tests ref_exp) = None
      /\ statuses (fst (run_tests ref_exp)) = [true; v2; v3; true; v5; v6]
      /\ summaries (fst (run_tests ref_exp)) = [v2 && v3 && v5 && v6]%bool.
Proof.
  assert (H0 : ref_exp 0 = 1) by (vm_compute; reflexivity).
  assert (Hx : forall x, In x [0.1; 0.5; 1; 0.2] ->
                 (1 <=? ref_exp x) = true /\ is_infinity (ref_exp x) = false).
  { intros x Hin. simpl in Hin.
    repeat (destruct Hin as [<-|Hin]; [ split; vm_compute; reflexivity | ]).
    elim Hin. }
  repeat (split; [ assumption | ]).
  exact (run_tests_completes ref_exp H0 Hx).
Defined.

(** ** More on exact arithmetic *)

Section ExactFacts.

Local Open Scope R_scope.










End ExactFacts.
